(** * AI financial-term dictionary: the search controller and its provider

    A shallow embedding of [src/services/geminiService.ts] (the definition
    provider, [getFinancialTermDefinition]) and of the stateful part of
    [src/App.tsx] (the form handler [handleSubmit], the asynchronous
    [handleSearch] and the view selector [renderContent]).

    JavaScript strings are sequences of UTF-16 code units; the four React
    state cells of [App] are a record; every call of a state setter is an
    explicit action, and [handleSearch] is the list of setter calls it makes
    before and after its single [await]. *)

From Stdlib Require Import List NArith Bool String Ascii QArith Lia.
Import ListNotations.
Close Scope Q_scope.

(* ------------------------------------------------------------------ *)
(** ** JavaScript strings *)

Module JsString.

(** A code unit is a 16-bit number; no operation below does arithmetic on
    it, so it is kept as an [N]. *)
Definition code_unit := N.
Definition t := list code_unit.

(** *** Literals

    The source file is UTF-8; [js] turns the bytes of a literal into the
    code units the JavaScript engine holds for it. *)

Definition emit (cp : N) : t :=
  if (cp <? 0x10000)%N then [cp]
  else let c := (cp - 0x10000)%N in
       [(0xD800 + c / 0x400)%N; (0xDC00 + c mod 0x400)%N].

Fixpoint decode (bs : list N) (acc : N) (need : nat) : t :=
  match bs with
  | [] => []
  | b :: bs' =>
      match need with
      | O =>
          if (b <? 0x80)%N then b :: decode bs' 0%N 0
          else if (b <? 0xE0)%N then decode bs' (N.land b 0x1F) 1
          else if (b <? 0xF0)%N then decode bs' (N.land b 0x0F) 2
          else decode bs' (N.land b 0x07) 3
      | S O => emit (acc * 64 + N.land b 0x3F)%N ++ decode bs' 0%N 0
      | S n => decode bs' (acc * 64 + N.land b 0x3F)%N n
      end
  end.

Definition js (s : string) : t :=
  decode (map N_of_ascii (list_ascii_of_string s)) 0%N 0.

Arguments js s%_string.

(** *** [String.prototype.startsWith] (position 0) *)
Fixpoint startsWith (s searchString : t) : bool :=
  match searchString with
  | [] => true
  | c :: p' =>
      match s with
      | [] => false
      | d :: s' => N.eqb d c && startsWith s' p'
      end
  end.

(** *** [String.prototype.trim]

    The code units removed are ECMAScript's WhiteSpace and LineTerminator:
    TAB, LF, VT, FF, CR, SP, NBSP, U+1680, U+2000..U+200A, U+2028, U+2029,
    U+202F, U+205F, U+3000 and the byte-order mark U+FEFF. *)
Definition isWhiteSpace (c : code_unit) : bool :=
  ((0x09 <=? c) && (c <=? 0x0D) || (c =? 0x20) || (c =? 0xA0)
   || (c =? 0x1680) || (0x2000 <=? c) && (c <=? 0x200A)
   || (c =? 0x2028) || (c =? 0x2029) || (c =? 0x202F) || (c =? 0x205F)
   || (c =? 0x3000) || (c =? 0xFEFF))%N.

Fixpoint trimStart (s : t) : t :=
  match s with
  | [] => []
  | c :: s' => if isWhiteSpace c then trimStart s' else s
  end.

Definition trimEnd (s : t) : t := rev (trimStart (rev s)).

Definition trim (s : t) : t := trimEnd (trimStart s).

(** *** Truthiness: a string is falsy exactly when it is empty. *)
Definition truthy (s : t) : bool :=
  match s with [] => false | _ :: _ => true end.

(** A [string | null] (or [string | undefined]) cell. *)
Definition truthy_opt (o : option t) : bool :=
  match o with None => false | Some s => truthy s end.

End JsString.

Definition jsstring : Type := JsString.t.
Import JsString.

(* ------------------------------------------------------------------ *)
(** ** Values that can be thrown, and settled promises *)

(** What a [catch] clause may receive.  [e instanceof Error] holds for
    [JsError] only; a plain object can own a [message] property without being
    an [Error]. *)
Inductive js_value : Type :=
| JsError (message : jsstring)
| JsStr (s : jsstring)
| JsObject (message : option jsstring)
| JsUndefined.

Definition instanceofError (e : js_value) : bool :=
  match e with JsError _ => true | _ => false end.

(** The two ways a [Promise<string>] settles. *)
Inductive settled : Type :=
| Fulfilled (value : jsstring)
| Rejected (reason : js_value).

(* ------------------------------------------------------------------ *)
(** ** The definition provider ([src/services/geminiService.ts]) *)

Module GeminiService.

Definition CONFIG_ERROR : jsstring :=
  Eval cbv in js "API 키가 설정되지 않았습니다. 애플리케이션 설정을 확인해주세요.".

(** The text of the template literal before [${error.message}]. *)
Definition API_ERROR_TEMPLATE : jsstring :=
  Eval cbv in js "API 호출 중 오류가 발생했습니다: ".

Definition UNKNOWN_ERROR : jsstring :=
  Eval cbv in js "알 수 없는 오류가 발생하여 정의를 가져올 수 없습니다.".

Definition systemInstruction : jsstring :=
  Eval cbv in js "당신은 금융 용어 전문가입니다. 사용자가 입력한 금융 용어에 대해 한국어로 명확하고 이해하기 쉽게 설명해야 합니다. 금융을 처음 접하는 사람도 이해할 수 있도록 친절하게 설명해주세요. 답변은 마크다운 형식을 사용하여 가독성을 높여주세요 (예: 글머리 기호, **굵은 글씨**). 답변은 반드시 500자 이내로 요약해주세요.".

(** The argument of [ai.models.generateContent]. *)
Record GenerateContentParameters : Type := {
  model : jsstring;
  contents : jsstring;
  config_systemInstruction : jsstring;
  config_temperature : Q
}.

Definition request (term : jsstring) : GenerateContentParameters :=
  {| model := js "gemini-2.5-flash";
     contents := term;
     config_systemInstruction := systemInstruction;
     config_temperature := 0.5%Q |}.

(** How the body of the [try] block ends: [response.text] is returned, or
    something is thrown. *)
Inductive sdk_result : Type :=
| SdkText (text : jsstring)
| SdkThrow (e : js_value).

(** The observable effects of one call, in order. *)
Inductive effect : Type :=
| NetworkCall (req : GenerateContentParameters)
| ConsoleError (detail : js_value).

Definition isNetworkCall (ev : effect) : bool :=
  match ev with NetworkCall _ => true | ConsoleError _ => false end.

Section Provider.

(** [process.env.API_KEY], read once when the module is loaded. *)
Variable API_KEY : option jsstring.

(** The remote service behind [ai.models.generateContent]. *)
Variable generateContent : GenerateContentParameters -> sdk_result.

Definition getFinancialTermDefinition (term : jsstring)
  : list effect * settled :=
  if negb (truthy_opt API_KEY) then
    ([], Rejected (JsStr CONFIG_ERROR))
  else
    let req := request term in
    match generateContent req with
    | SdkText text => ([NetworkCall req], Fulfilled text)
    | SdkThrow error =>
        ([NetworkCall req; ConsoleError error],
         Fulfilled
           match error with
           | JsError message => API_ERROR_TEMPLATE ++ message
           | _ => UNKNOWN_ERROR
           end)
    end.

End Provider.

End GeminiService.

(* ------------------------------------------------------------------ *)
(** ** The search controller ([src/App.tsx]) *)

Module App.

Import GeminiService.

(** The two arguments of [result.startsWith] in [handleSearch]. *)
Definition API_ERROR_PREFIX : jsstring :=
  Eval cbv in js "API 호출 중 오류가 발생했습니다:".

Definition UNKNOWN_ERROR_PREFIX : jsstring :=
  Eval cbv in js "알 수 없는 오류가 발생하여".

(** The message of the [catch] clause for a value that is not an [Error]. *)
Definition FALLBACK_ERROR : jsstring :=
  Eval cbv in js "알 수 없는 오류가 발생했습니다.".

(** The four [useState] cells of [App]. *)
Record State : Type := {
  searchedTerm : option jsstring;
  definition : option jsstring;
  isLoading : bool;
  error : option jsstring
}.

Definition initial : State :=
  {| searchedTerm := None; definition := None;
     isLoading := false; error := None |}.

(** One call of a state setter. *)
Inductive setter : Type :=
| setSearchedTerm (v : option jsstring)
| setDefinition (v : option jsstring)
| setIsLoading (v : bool)
| setError (v : option jsstring).

Definition set (st : State) (a : setter) : State :=
  match a with
  | setSearchedTerm v =>
      {| searchedTerm := v; definition := definition st;
         isLoading := isLoading st; error := error st |}
  | setDefinition v =>
      {| searchedTerm := searchedTerm st; definition := v;
         isLoading := isLoading st; error := error st |}
  | setIsLoading v =>
      {| searchedTerm := searchedTerm st; definition := definition st;
         isLoading := v; error := error st |}
  | setError v =>
      {| searchedTerm := searchedTerm st; definition := definition st;
         isLoading := isLoading st; error := v |}
  end.

(** The setter calls of a handler, applied in program order. *)
Definition run (st : State) (calls : list setter) : State :=
  fold_left set calls st.

(** *** [handleSearch]

    The part before the [await] ... *)
Definition handleSearch_begin (term : jsstring) : list setter :=
  [setIsLoading true; setError None; setDefinition None;
   setSearchedTerm (Some term)].

Definition isErrorResult (result : jsstring) : bool :=
  startsWith result API_ERROR_PREFIX
  || startsWith result UNKNOWN_ERROR_PREFIX.

(** ... and the part after it: the [try] branch when the promise is
    fulfilled, the [catch] branch when it is rejected, then [finally]. *)
Definition handleSearch_settle (outcome : settled) : list setter :=
  match outcome with
  | Fulfilled result =>
      if isErrorResult result then [setError (Some result)]
      else [setDefinition (Some result)]
  | Rejected e =>
      let errorMessage :=
        match e with
        | JsError message => message
        | _ => FALLBACK_ERROR
        end in
      [setError (Some errorMessage)]
  end ++ [setIsLoading false].

(** One whole call of [handleSearch], from the call to the end of
    [finally], when the provider's promise settles as [outcome]. *)
Definition handleSearch (st : State) (term : jsstring) (outcome : settled)
  : State :=
  run (run st (handleSearch_begin term)) (handleSearch_settle outcome).

(** [handleSearch] wired to the provider. *)
Definition search (API_KEY : option jsstring)
    (generateContent : GenerateContentParameters -> sdk_result)
    (st : State) (term : jsstring) : State :=
  handleSearch st term
    (snd (getFinancialTermDefinition API_KEY generateContent term)).

(** *** [renderContent] *)
Inductive View : Type :=
| LoadingIndicator
| ErrorDisplay (message : jsstring)
| ResultDisplay (term definition : jsstring)
| InitialState.

(** The value of a cell once a truthiness test has narrowed its type to
    [string]. *)
Definition narrowed (o : option jsstring) : jsstring :=
  match o with Some s => s | None => [] end.

Definition renderContent (st : State) : View :=
  if isLoading st then LoadingIndicator
  else if truthy_opt (error st) then ErrorDisplay (narrowed (error st))
  else if truthy_opt (definition st) && truthy_opt (searchedTerm st) then
    ResultDisplay (narrowed (searchedTerm st)) (narrowed (definition st))
  else InitialState.

(** *** The running application

    Besides the state cells, the calls of [getFinancialTermDefinition]
    that [handleSearch] has made and that have not settled yet (each
    stands for a suspended [await]), recorded by their term. *)
Record System : Type := {
  app : State;
  pending : list jsstring
}.

Definition start : System := {| app := initial; pending := [] |}.

(** [SearchForm]'s [handleSubmit], with [input] the content of the text
    box; [onSubmit] is [handleSearch], which runs up to its [await]. *)
Definition rejects (input : jsstring) (st : State) : bool :=
  negb (truthy (trim input)) || isLoading st.

Definition handleSubmit_calls (input : jsstring) (st : State)
  : list setter :=
  if rejects input st then [] else handleSearch_begin (trim input).

Definition handleSubmit (input : jsstring) (sys : System) : System :=
  if rejects input (app sys) then sys
  else {| app := run (app sys) (handleSearch_begin (trim input));
          pending := pending sys ++ [trim input] |}.

(** A step is the handling of one event: a form submission, or the
    settling of one pending provider call.  It is labelled with the setter
    calls it makes, in order. *)
Inductive step : System -> list setter -> System -> Prop :=
| step_submit (input : jsstring) (sys : System) :
    step sys (handleSubmit_calls input (app sys)) (handleSubmit input sys)
| step_settle (term : jsstring) (outcome : settled)
      (before after : list jsstring) (sys : System) :
    pending sys = before ++ term :: after ->
    step sys (handleSearch_settle outcome)
      {| app := run (app sys) (handleSearch_settle outcome);
         pending := before ++ after |}.

Inductive reachable : System -> Prop :=
| reachable_start : reachable start
| reachable_step (sys sys' : System) (calls : list setter) :
    reachable sys -> step sys calls sys' -> reachable sys'.

Arguments reachable_step {sys sys' calls}.

(** How many times a list of setter calls switches the spinner on. *)
Definition entersLoading (a : setter) : bool :=
  match a with setIsLoading true => true | _ => false end.

Definition count_entersLoading (calls : list setter) : nat :=
  List.length (filter entersLoading calls).

End App.

Import GeminiService App.

(** The invariant of the running application: while the spinner is on,
    exactly one provider call is pending and both result cells are empty;
    while it is off, nothing is pending; a definition is never held together
    with an error, and a held definition comes with a non-empty term. *)
Record Inv (sys : System) : Prop := {
  inv_loading :
    isLoading (app sys) = true ->
    error (app sys) = None /\ definition (app sys) = None
    /\ truthy_opt (searchedTerm (app sys)) = true
    /\ exists term, pending sys = [term];
  inv_idle : isLoading (app sys) = false -> pending sys = [];
  inv_exclusive : error (app sys) = None \/ definition (app sys) = None;
  inv_term :
    definition (app sys) <> None ->
    truthy_opt (searchedTerm (app sys)) = true
}.

Arguments inv_loading {sys}.
Arguments inv_idle {sys}.
Arguments inv_exclusive {sys}.
Arguments inv_term {sys}.

(** A term as [handleSubmit] passes it on: not empty, and with nothing left
    to trim. *)
Definition trimmed (term : jsstring) : Prop :=
  term <> [] /\ trim term = term.

(** The application just after [handleSearch term] reached its [await] ... *)
Definition loading_state (term : jsstring) : System :=
  {| app := {| searchedTerm := Some term; definition := None;
               isLoading := true; error := None |};
     pending := [term] |}.

(** ... and after the awaited promise settled as [outcome]. *)
Definition settled_state (term : jsstring) (outcome : settled) : System :=
  {| app := handleSearch initial term outcome; pending := [] |}.

(** The oldest pending provider call settles and its [handleSearch] runs to
    the end. *)
Definition settle_oldest (outcome : settled) (sys : System) : System :=
  match pending sys with
  | [] => sys
  | _ :: rest =>
      {| app := run (app sys) (handleSearch_settle outcome);
         pending := rest |}
  end.

(** *** A session: the form wired to the provider

    The user submits the box contents [inputs] one after the other, each
    time waiting for the answer.  Besides the application, the effects of the
    provider calls are collected in order. *)
Section Session.

Variable API_KEY : option jsstring.
Variable generateContent : GenerateContentParameters -> sdk_result.

Definition submission (s : System * list effect) (input : jsstring)
  : System * list effect :=
  if rejects input (app (fst s)) then s
  else
    let r := getFinancialTermDefinition API_KEY generateContent (trim input) in
    (settle_oldest (snd r) (handleSubmit input (fst s)), snd s ++ fst r).

Definition session_from (s : System * list effect) (inputs : list jsstring)
  : System * list effect :=
  fold_left submission inputs s.

Definition session (inputs : list jsstring) : System * list effect :=
  session_from (start, []) inputs.

End Session.

(** The inputs of a session that the form accepts. *)
Definition accepted (inputs : list jsstring) : list jsstring :=
  filter (fun input => truthy (trim input)) inputs.



(** Case analysis on membership in a short effect log. *)
Ltac effect_cases :=
  repeat match goal with
    | H : _ \/ _ |- _ => destruct H
    | H : _ /\ _ |- _ => destruct H
    | H : False |- _ => destruct H
    | H : NetworkCall _ = NetworkCall _ |- _ => injection H as <-
    | H : ConsoleError _ = ConsoleError _ |- _ => injection H as <-
    | H : SdkThrow _ = SdkThrow _ |- _ => injection H as <-
    | H : _ = _ |- _ => discriminate H
    end;
  repeat split; auto.

(* ------------------------------------------------------------------ *)
(** ** Strings *)

Section StringFacts.

Lemma startsWith_nonempty (s p : jsstring) :
  p <> [] -> startsWith s p = true -> s <> [].
Proof.
  intros Hp Hs ->. destruct p as [|c p']; [now apply Hp | discriminate Hs].
Qed.

Lemma truthy_iff (s : jsstring) : truthy s = true <-> s <> [].
Proof.
  destruct s; simpl; split; intro H; congruence.
Qed.

Lemma truthy_false_iff (s : jsstring) : truthy s = false <-> s = [].
Proof. destruct s; simpl; split; intro H; congruence. Qed.

Lemma trimStart_nil_iff (s : jsstring) :
  trimStart s = [] <-> forallb isWhiteSpace s = true.
Proof.
  induction s as [|c s IH]; simpl.
  - tauto.
  - destruct (isWhiteSpace c); simpl; [exact IH | split; discriminate].
Qed.

(** What [trimStart] leaves does not begin with white space. *)
Lemma trimStart_head (s : jsstring) (c : code_unit) (r : jsstring) :
  trimStart s = c :: r -> isWhiteSpace c = false.
Proof.
  induction s as [|d s IH]; simpl; [discriminate|].
  destruct (isWhiteSpace d) eqn:Hd; [exact IH|].
  intros [= <- _]. exact Hd.
Qed.

(** The trimmed form is empty exactly for the empty and the
    white-space-only strings. *)
Lemma trim_nil_iff (s : jsstring) :
  trim s = [] <-> forallb isWhiteSpace s = true.
Proof.
  unfold trim, trimEnd. split.
  - intro H. apply trimStart_nil_iff.
    assert (Hr : trimStart (rev (trimStart s)) = []).
    { rewrite <- (rev_involutive (trimStart (rev (trimStart s)))), H.
      reflexivity. }
    apply trimStart_nil_iff in Hr. rewrite forallb_forall in Hr.
    destruct (trimStart s) as [|c r] eqn:Hs; [reflexivity|].
    apply trimStart_head in Hs.
    rewrite (Hr c) in Hs; [discriminate|].
    apply in_rev. rewrite rev_involutive. now left.
  - intro H. apply trimStart_nil_iff in H. rewrite H. reflexivity.
Qed.

End StringFacts.

(* ------------------------------------------------------------------ *)
(** ** The provider *)

Section ProviderFacts.

Variable generateContent : GenerateContentParameters -> sdk_result.

(** With a credential, the promise is always fulfilled and exactly one
    request is sent. *)
Lemma configured_provider_fulfils (API_KEY : option jsstring)
    (term : jsstring) :
  truthy_opt API_KEY = true ->
  exists text,
    snd (getFinancialTermDefinition API_KEY generateContent term)
    = Fulfilled text
    /\ filter isNetworkCall
         (fst (getFinancialTermDefinition API_KEY generateContent term))
       = [NetworkCall (request term)].
Proof.
  intro Hkey. unfold getFinancialTermDefinition. rewrite Hkey. simpl.
  destruct (generateContent (request term)); simpl; eauto.
Qed.

(** Every string the provider builds in its [catch] clause is recognised
    by the controller's prefix test. *)
Lemma provider_error_strings_recognised :
  (forall message, isErrorResult (API_ERROR_TEMPLATE ++ message) = true)
  /\ isErrorResult UNKNOWN_ERROR = true.
Proof. split; [intro message|]; reflexivity. Qed.

End ProviderFacts.

(** C3. Whatever is caught inside [getFinancialTermDefinition] (the
    credential being present, so that the [try] block is entered), the
    promise is fulfilled, never rejected: with the template string followed by
    the message when the caught value is an [Error], and with the fixed
    unknown-error string otherwise. *)
Theorem caught_failure_is_returned_as_string
    (API_KEY : option jsstring)
    (generateContent : GenerateContentParameters -> sdk_result)
    (term : jsstring) (e : js_value) :
  truthy_opt API_KEY = true ->
  generateContent (request term) = SdkThrow e ->
  let outcome :=
    snd (getFinancialTermDefinition API_KEY generateContent term) in
  (forall reason, outcome <> Rejected reason)
  /\ (forall message, e = JsError message ->
        outcome = Fulfilled (API_ERROR_TEMPLATE ++ message))
  /\ (instanceofError e = false -> outcome = Fulfilled UNKNOWN_ERROR).
Proof.
  intros Hkey Hthrow. unfold getFinancialTermDefinition.
  rewrite Hkey, Hthrow. simpl. repeat split.
  - discriminate.
  - now intros message ->.
  - destruct e; simpl; intro H; [discriminate H | reflexivity ..].
Qed.

Lemma caught_failure_is_returned_as_string_witness :
  let API_KEY := Some (js "k") in
  let sdk := fun _ : GenerateContentParameters =>
               SdkThrow (JsError (js "quota exceeded")) in
  snd (getFinancialTermDefinition API_KEY sdk (js "ESG"))
  = Fulfilled (js "API 호출 중 오류가 발생했습니다: quota exceeded").
Proof.
  intros API_KEY sdk.
  destruct (caught_failure_is_returned_as_string API_KEY sdk (js "ESG")
              (JsError (js "quota exceeded")) eq_refl eq_refl)
    as (_ & Herror & _).
  exact (Herror (js "quota exceeded") eq_refl).
Defined.

(** C4. Without a credential ([API_KEY] undefined or empty), every call is
    rejected at once with the fixed configuration message, and no request is
    sent to the remote service. *)
Theorem missing_credential_rejects_without_request
    (API_KEY : option jsstring)
    (generateContent : GenerateContentParameters -> sdk_result)
    (term : jsstring) :
  truthy_opt API_KEY = false ->
  getFinancialTermDefinition API_KEY generateContent term
  = ([], Rejected (JsStr CONFIG_ERROR))
  /\ existsb isNetworkCall
       (fst (getFinancialTermDefinition API_KEY generateContent term))
     = false.
Proof.
  intro Hkey. unfold getFinancialTermDefinition. rewrite Hkey. simpl.
  split; reflexivity.
Qed.

Lemma missing_credential_rejects_without_request_witness :
  getFinancialTermDefinition None (fun _ => SdkText (js "**ESG**")) (js "ESG")
  = ([], Rejected (JsStr CONFIG_ERROR)).
Proof.
  apply (missing_credential_rejects_without_request None
           (fun _ => SdkText (js "**ESG**")) (js "ESG")).
  reflexivity.
Defined.

(* ------------------------------------------------------------------ *)
(** ** One call of [handleSearch] *)

Section HandleSearchFacts.

Variables (st : State) (term : jsstring).

Lemma handleSearch_error_result (result : jsstring) :
  isErrorResult result = true ->
  handleSearch st term (Fulfilled result)
  = {| searchedTerm := Some term; definition := None;
       isLoading := false; error := Some result |}.
Proof.
  intro H. unfold handleSearch, handleSearch_settle. rewrite H. reflexivity.
Qed.

Lemma handleSearch_plain_result (result : jsstring) :
  isErrorResult result = false ->
  handleSearch st term (Fulfilled result)
  = {| searchedTerm := Some term; definition := Some result;
       isLoading := false; error := None |}.
Proof.
  intro H. unfold handleSearch, handleSearch_settle. rewrite H. reflexivity.
Qed.

Lemma handleSearch_rejected (e : js_value) :
  handleSearch st term (Rejected e)
  = {| searchedTerm := Some term; definition := None;
       isLoading := false;
       error := Some match e with
                     | JsError message => message
                     | _ => FALLBACK_ERROR
                     end |}.
Proof. reflexivity. Qed.

Lemma isErrorResult_nonempty (result : jsstring) :
  isErrorResult result = true -> result <> [].
Proof.
  unfold isErrorResult. intro H. apply orb_true_iff in H.
  destruct H as [H | H]; eapply startsWith_nonempty; try exact H;
    discriminate.
Qed.

Lemma render_error (message : jsstring) (t d : option jsstring) :
  message <> [] ->
  renderContent {| searchedTerm := t; definition := d;
                   isLoading := false; error := Some message |}
  = ErrorDisplay message.
Proof.
  intro H. apply truthy_iff in H. unfold renderContent. simpl.
  rewrite H. reflexivity.
Qed.

End HandleSearchFacts.

(** C1. When the provider's promise is fulfilled with a string that starts
    with either error prefix, the submission ends with the error view showing
    exactly that string, whatever else the string contains (so also a genuine
    definition that happens to begin that way). *)
Theorem prefixed_result_ends_in_error
    (st : State) (term result : jsstring) :
  startsWith result API_ERROR_PREFIX = true
  \/ startsWith result UNKNOWN_ERROR_PREFIX = true ->
  let st' := handleSearch st term (Fulfilled result) in
  renderContent st' = ErrorDisplay result
  /\ error st' = Some result
  /\ definition st' = None
  /\ isLoading st' = false.
Proof.
  intros H st'.
  assert (He : isErrorResult result = true).
  { unfold isErrorResult. apply orb_true_iff. exact H. }
  subst st'. rewrite (handleSearch_error_result st term result He).
  repeat split. apply render_error. now apply isErrorResult_nonempty.
Qed.

Lemma prefixed_result_ends_in_error_witness :
  let text := js "알 수 없는 오류가 발생하여 거래가 취소되는 경우를 **거래 실패**라고 합니다." in
  renderContent (handleSearch initial (js "거래 실패") (Fulfilled text))
  = ErrorDisplay text.
Proof.
  intro text.
  apply (prefixed_result_ends_in_error initial (js "거래 실패") text).
  right. reflexivity.
Defined.

(** C2, as the spec states it, fails for the empty string: it starts with
    neither prefix, yet the submission does not end in the result view. *)
Lemma empty_result_is_not_success :
  startsWith [] API_ERROR_PREFIX = false
  /\ startsWith [] UNKNOWN_ERROR_PREFIX = false
  /\ renderContent (handleSearch initial (js "ESG") (Fulfilled []))
     <> ResultDisplay (js "ESG") [].
Proof. repeat split. discriminate. Qed.

(** C2 (amended). When the provider's promise is fulfilled with a non-empty
    string that starts with neither error prefix, a submission accepted by the
    form (its term is the non-empty trimmed input) ends in the result view,
    with that term as heading and that string as markdown body. *)
Theorem plain_result_ends_in_success
    (st : State) (input result : jsstring) :
  trim input <> [] ->
  result <> [] ->
  startsWith result API_ERROR_PREFIX = false ->
  startsWith result UNKNOWN_ERROR_PREFIX = false ->
  let st' := handleSearch st (trim input) (Fulfilled result) in
  renderContent st' = ResultDisplay (trim input) result
  /\ definition st' = Some result
  /\ searchedTerm st' = Some (trim input)
  /\ error st' = None
  /\ isLoading st' = false.
Proof.
  intros Hterm Hresult H1 H2 st'.
  assert (He : isErrorResult result = false).
  { unfold isErrorResult. rewrite H1, H2. reflexivity. }
  subst st'. rewrite (handleSearch_plain_result st (trim input) result He).
  repeat split. unfold renderContent. simpl.
  apply truthy_iff in Hterm, Hresult. rewrite Hterm, Hresult. reflexivity.
Qed.

Lemma plain_result_ends_in_success_witness :
  renderContent
    (handleSearch initial (trim (js " ESG ")) (Fulfilled (js "**ESG**는 환경(E)...")))
  = ResultDisplay (js "ESG") (js "**ESG**는 환경(E)...").
Proof.
  apply (plain_result_ends_in_success initial (js " ESG ")
           (js "**ESG**는 환경(E)..."));
    first [discriminate | reflexivity].
Defined.

(** C10. The empty string starts with neither prefix; when the promise is
    fulfilled with it, it is stored as the definition, and the view selected
    afterwards is the initial placeholder, not the result view. *)
Theorem empty_result_stored_but_placeholder_shown
    (st : State) (term : jsstring) :
  isErrorResult [] = false
  /\ definition (handleSearch st term (Fulfilled [])) = Some []
  /\ error (handleSearch st term (Fulfilled [])) = None
  /\ isLoading (handleSearch st term (Fulfilled [])) = false
  /\ renderContent (handleSearch st term (Fulfilled [])) = InitialState.
Proof. repeat split. Qed.

(** C8, as the spec states it, fails for an [Error] whose message is empty:
    the placeholder is shown, not an error view (neither with the empty
    message nor with the fallback). *)
Lemma empty_message_rejection_shows_no_error :
  renderContent (handleSearch initial (js "ESG") (Rejected (JsError [])))
  = InitialState
  /\ renderContent (handleSearch initial (js "ESG") (Rejected (JsError [])))
     <> ErrorDisplay []
  /\ renderContent (handleSearch initial (js "ESG") (Rejected (JsError [])))
     <> ErrorDisplay FALLBACK_ERROR.
Proof. repeat split; discriminate. Qed.

(** C8 (amended). When the provider's promise is rejected, the message kept
    in the [error] cell is the [Error]'s message, or the generic fallback for
    any other value; the submission ends in the error view with that message
    when the value is an [Error] with a non-empty message or is not an
    [Error].  A rejection with an [Error] saying "network down" ends in the
    error view showing "network down". *)
Theorem rejection_ends_in_error (st : State) (term : jsstring) :
  (forall message, message <> [] ->
     let st' := handleSearch st term (Rejected (JsError message)) in
     renderContent st' = ErrorDisplay message
     /\ error st' = Some message /\ definition st' = None
     /\ isLoading st' = false)
  /\ (forall e, instanceofError e = false ->
        let st' := handleSearch st term (Rejected e) in
        renderContent st' = ErrorDisplay FALLBACK_ERROR
        /\ error st' = Some FALLBACK_ERROR /\ definition st' = None
        /\ isLoading st' = false)
  /\ renderContent
       (handleSearch st term (Rejected (JsError (js "network down"))))
     = ErrorDisplay (js "network down").
Proof.
  repeat split.
  - rewrite handleSearch_rejected. now apply render_error.
  - destruct e; try discriminate; reflexivity.
  - destruct e; try discriminate; reflexivity.
Qed.

Lemma rejection_ends_in_error_witness :
  renderContent
    (handleSearch initial (js "ESG") (Rejected (JsError (js "timeout"))))
  = ErrorDisplay (js "timeout")
  /\ renderContent
       (handleSearch initial (js "ESG")
          (Rejected (JsObject (Some (js "timeout")))))
     = ErrorDisplay FALLBACK_ERROR.
Proof.
  destruct (rejection_ends_in_error initial (js "ESG")) as (Herr & Hother & _).
  split.
  - apply (Herr (js "timeout")). discriminate.
  - apply (Hother (JsObject (Some (js "timeout")))). reflexivity.
Defined.

(** C5: what the code does when the credential is missing.  The provider
    rejects with the configuration message as a plain string, which is not an
    [Error]; the controller's [catch] clause therefore shows the generic
    fallback, and the configuration message never reaches the user. *)
Theorem missing_credential_shows_generic_fallback
    (generateContent : GenerateContentParameters -> sdk_result)
    (st : State) (term : jsstring) :
  snd (getFinancialTermDefinition None generateContent term)
  = Rejected (JsStr CONFIG_ERROR)
  /\ renderContent (search None generateContent st term)
     = ErrorDisplay FALLBACK_ERROR
  /\ error (search None generateContent st term) = Some FALLBACK_ERROR
  /\ FALLBACK_ERROR <> CONFIG_ERROR.
Proof. repeat split. discriminate. Qed.

(* ------------------------------------------------------------------ *)
(** ** The form handler *)

Section HandleSubmitFacts.

Variables (input : jsstring) (sys : System).

Lemma rejects_false_iff :
  rejects input (app sys) = false
  <-> trim input <> [] /\ isLoading (app sys) = false.
Proof.
  unfold rejects. rewrite orb_false_iff, negb_false_iff, truthy_iff.
  tauto.
Qed.

Lemma rejects_true_iff :
  rejects input (app sys) = true
  <-> trim input = [] \/ isLoading (app sys) = true.
Proof.
  unfold rejects. rewrite orb_true_iff, negb_true_iff, truthy_false_iff.
  tauto.
Qed.

End HandleSubmitFacts.

(** C6. From a state that is not loading, submitting an input whose trimmed
    form is not empty switches to the loading view, clears the previous
    definition and the previous error, records the trimmed input as the
    searched term and calls the provider once; the submission switches the
    loading flag on exactly once, also counted up to the end of the call. *)
Theorem accepted_submission_enters_loading
    (sys : System) (input : jsstring) :
  trim input <> [] ->
  isLoading (app sys) = false ->
  let sys' := handleSubmit input sys in
  isLoading (app sys') = true
  /\ renderContent (app sys') = LoadingIndicator
  /\ definition (app sys') = None
  /\ error (app sys') = None
  /\ searchedTerm (app sys') = Some (trim input)
  /\ pending sys' = pending sys ++ [trim input]
  /\ count_entersLoading (handleSubmit_calls input (app sys)) = 1
  /\ (forall outcome,
        count_entersLoading
          (handleSubmit_calls input (app sys) ++ handleSearch_settle outcome)
        = 1).
Proof.
  intros Hterm Hidle sys'.
  assert (Hacc : rejects input (app sys) = false).
  { apply rejects_false_iff. now split. }
  subst sys'. unfold handleSubmit, handleSubmit_calls. rewrite Hacc.
  repeat split.
  intros [result | e]; unfold handleSearch_settle;
    [destruct (isErrorResult result)|]; reflexivity.
Qed.

Lemma accepted_submission_enters_loading_witness :
  let previous :=
    {| app := {| searchedTerm := Some (js "ETF");
                 definition := Some (js "**ETF**는 ...");
                 isLoading := false; error := None |};
       pending := [] |} in
  app (handleSubmit (js "  ESG ") previous)
  = {| searchedTerm := Some (js "ESG"); definition := None;
       isLoading := true; error := None |}
  /\ pending (handleSubmit (js "  ESG ") previous) = [js "ESG"].
Proof.
  intro previous.
  destruct (accepted_submission_enters_loading previous (js "  ESG "))
    as (Hl & _ & Hd & He & Ht & Hp & _);
    [discriminate | reflexivity |].
  split; [|exact Hp].
  destruct (app (handleSubmit (js "  ESG ") previous)); simpl in *.
  now subst.
Defined.

(* ------------------------------------------------------------------ *)
(** ** Reachable states *)

Lemma Inv_start : Inv start.
Proof. split; simpl; auto; try discriminate; congruence. Qed.

Lemma singleton_split (A : Type) (x y : A) (before after : list A) :
  [x] = before ++ y :: after -> before = [] /\ after = [].
Proof.
  destruct before as [|b before']; simpl.
  - intros [= _ <-]. now split.
  - intros [= _ H]. now destruct before'.
Qed.

Lemma step_preserves_Inv {sys sys' : System} {calls : list setter} :
  Inv sys -> step sys calls sys' -> Inv sys'.
Proof.
  intros HI Hstep. destruct Hstep as [input sys | term outcome before after sys Hp].
  - unfold handleSubmit. destruct (rejects input (app sys)) eqn:Hr; [exact HI|].
    apply rejects_false_iff in Hr. destruct Hr as [Hterm Hidle].
    apply truthy_iff in Hterm.
    rewrite (inv_idle HI Hidle).
    split; simpl; auto; try discriminate; try congruence.
    intros _. repeat split; eauto.
  - destruct (isLoading (app sys)) eqn:Hl.
    + destruct (inv_loading HI Hl) as (He & Hd & Ht & term' & Hp').
      rewrite Hp' in Hp. apply singleton_split in Hp. destruct Hp as [-> ->].
      destruct sys as [[t d l e] p]; simpl in *. subst.
      destruct outcome as [result | reason]; unfold handleSearch_settle;
        [destruct (isErrorResult result)|];
        split; simpl; auto; try discriminate; congruence.
    + rewrite (inv_idle HI Hl) in Hp. now destruct before.
Qed.

Lemma reachable_Inv (sys : System) : reachable sys -> Inv sys.
Proof.
  induction 1 as [|sys sys' calls _ IH Hstep].
  - exact Inv_start.
  - exact (step_preserves_Inv IH Hstep).
Qed.

(** A provider call is pending exactly while the spinner is on. *)
Lemma pending_iff_loading (sys : System) :
  reachable sys -> (pending sys <> [] <-> isLoading (app sys) = true).
Proof.
  intro Hr. apply reachable_Inv in Hr. split.
  - intro Hp. destruct (isLoading (app sys)) eqn:Hl; [reflexivity|].
    now elim Hp; apply (inv_idle Hr).
  - intros Hl Hp. destruct (inv_loading Hr Hl) as (_ & _ & _ & term & Ht).
    congruence.
Qed.

(** Between two setter calls of one handler the two result cells are not
    both filled either. *)
Lemma exclusive_midway (sys sys' : System) (calls : list setter) (k : nat) :
  Inv sys -> step sys calls sys' ->
  error (run (app sys) (firstn k calls)) = None
  \/ definition (run (app sys) (firstn k calls)) = None.
Proof.
  intros HI Hstep. pose proof (inv_exclusive HI) as Hex.
  destruct Hstep as [input sys | term outcome before after sys Hp].
  - unfold handleSubmit_calls. destruct (rejects input (app sys)).
    + now destruct k.
    + do 4 (destruct k as [|k]; [unfold run; simpl; auto|]).
      unfold run; simpl; rewrite firstn_nil; simpl; auto.
  - destruct (isLoading (app sys)) eqn:Hl.
    + destruct (inv_loading HI Hl) as (He & Hd & _).
      destruct outcome as [result | reason]; unfold handleSearch_settle;
        [destruct (isErrorResult result)|];
        do 2 (destruct k as [|k]; [unfold run; simpl; auto|]);
        unfold run; simpl; rewrite firstn_nil; simpl; auto.
    + rewrite (inv_idle HI Hl) in Hp. now destruct before.
Qed.

(** C7. Submitting an input whose trimmed form is empty, or submitting while
    a request is in flight (the spinner is on; in a reachable state, a
    provider call is pending), changes nothing: the four state cells and the
    pending calls are as before, no setter is called and the provider is not
    invoked. *)
Theorem rejected_submission_is_noop (sys : System) (input : jsstring) :
  trim input = []
  \/ isLoading (app sys) = true
  \/ (reachable sys /\ pending sys <> []) ->
  handleSubmit input sys = sys
  /\ handleSubmit_calls input (app sys) = [].
Proof.
  intro H.
  assert (Hr : rejects input (app sys) = true).
  { apply rejects_true_iff. destruct H as [H | [H | [Hreach Hp]]]; auto.
    right. now apply pending_iff_loading. }
  unfold handleSubmit, handleSubmit_calls. rewrite Hr. now split.
Qed.

Lemma rejected_submission_is_noop_witness :
  handleSubmit (js "  ") start = start
  /\ handleSubmit (js "ETF") (handleSubmit (js "ESG") start)
     = handleSubmit (js "ESG") start.
Proof.
  split.
  - apply (rejected_submission_is_noop start (js "  ")).
    left. reflexivity.
  - apply (rejected_submission_is_noop (handleSubmit (js "ESG") start)
             (js "ETF")).
    right. right. split; [|discriminate].
    exact (reachable_step reachable_start (step_submit (js "ESG") start)).
Defined.

(** C9. In every state reached by submissions and by provider calls being
    fulfilled or rejected, the error cell and the definition cell are never
    both filled (not even between two setter calls of the next handler), and
    the view that [renderContent] selects is the only one whose condition
    holds: the spinner means no result is held, the error view means no
    definition is held, the result view means no error is held, and the
    placeholder means there is nothing to show. *)
Theorem exactly_one_view_active (sys : System) :
  reachable sys ->
  let st := app sys in
  (error st = None \/ definition st = None)
  /\ (forall calls sys' k,
        step sys calls sys' ->
        error (run st (firstn k calls)) = None
        \/ definition (run st (firstn k calls)) = None)
  /\ match renderContent st with
     | LoadingIndicator =>
         isLoading st = true /\ error st = None /\ definition st = None
     | ErrorDisplay message =>
         isLoading st = false /\ error st = Some message
         /\ definition st = None
     | ResultDisplay term d =>
         isLoading st = false /\ error st = None
         /\ definition st = Some d /\ searchedTerm st = Some term
     | InitialState =>
         isLoading st = false /\ truthy_opt (error st) = false
         /\ truthy_opt (definition st) = false
     end.
Proof.
  intros Hreach st. apply reachable_Inv in Hreach. subst st.
  split; [exact (inv_exclusive Hreach)|].
  split; [intros calls sys' k Hstep; now apply exclusive_midway with sys'|].
  pose proof (inv_loading Hreach) as Hload.
  pose proof (inv_exclusive Hreach) as Hex.
  pose proof (inv_term Hreach) as Hterm.
  unfold renderContent.
  destruct (app sys) as [t d l e]; simpl in *.
  destruct l.
  - destruct Hload as (He & Hd & _); auto.
  - destruct e as [[|c m]|]; simpl.
    + destruct d as [[|c' d']|]; simpl; auto.
      destruct Hex; discriminate.
    + destruct Hex as [Hex | Hex]; [discriminate | auto].
    + destruct d as [[|c' d']|]; simpl; auto.
      rewrite Hterm by discriminate.
      destruct t as [t'|]; [simpl; auto | discriminate Hterm; discriminate].
Qed.

Lemma exactly_one_view_active_witness :
  let sys :=
    {| app := handleSearch initial (js "ESG") (Fulfilled (js "**ESG**"));
       pending := [] |} in
  error (app sys) = None \/ definition (app sys) = None.
Proof.
  intro sys.
  apply (exactly_one_view_active sys).
  apply (reachable_step (sys := handleSubmit (js "ESG") start)
           (calls := handleSearch_settle (Fulfilled (js "**ESG**")))).
  - exact (reachable_step reachable_start (step_submit (js "ESG") start)).
  - exact (step_settle (js "ESG") (Fulfilled (js "**ESG**")) [] []
             (handleSubmit (js "ESG") start) eq_refl).
Defined.

(* ------------------------------------------------------------------ *)
(** ** More on [trim] *)

Section TrimFacts.

Lemma trimStart_decompose (s : jsstring) :
  exists ws, forallb isWhiteSpace ws = true /\ s = ws ++ trimStart s.
Proof.
  induction s as [|c s (ws & Hws & Hs)]; simpl.
  - now exists [].
  - destruct (isWhiteSpace c) eqn:Hc.
    + exists (c :: ws). simpl. rewrite Hc, Hws.
      split; [reflexivity | now rewrite <- Hs].
    + now exists [].
Qed.

Lemma trimStart_keeps (c : code_unit) (r : jsstring) :
  isWhiteSpace c = false -> trimStart (c :: r) = c :: r.
Proof. intro Hc. simpl. now rewrite Hc. Qed.

Lemma trimStart_idempotent (s : jsstring) :
  trimStart (trimStart s) = trimStart s.
Proof.
  destruct (trimStart s) as [|c r] eqn:Hs; [reflexivity|].
  apply trimStart_keeps. exact (trimStart_head s c r Hs).
Qed.

(** [trimStart s] is [trim s] followed by the white space cut at the end. *)
Lemma trimStart_trim (s : jsstring) :
  exists ws, forallb isWhiteSpace ws = true /\ trimStart s = trim s ++ ws.
Proof.
  destruct (trimStart_decompose (rev (trimStart s))) as (ws & Hws & Hrev).
  exists (rev ws). split.
  - rewrite forallb_forall in *. intros c Hc. apply Hws. now apply in_rev.
  - unfold trim, trimEnd. rewrite <- rev_app_distr, <- Hrev.
    now rewrite rev_involutive.
Qed.

Lemma trim_head (s : jsstring) (c : code_unit) (r : jsstring) :
  trim s = c :: r -> isWhiteSpace c = false.
Proof.
  intro H. destruct (trimStart_trim s) as (ws & _ & Hs).
  rewrite H in Hs. exact (trimStart_head s c (r ++ ws) Hs).
Qed.

Lemma trim_last (s : jsstring) (c : code_unit) (r : jsstring) :
  trim s = r ++ [c] -> isWhiteSpace c = false.
Proof.
  unfold trim, trimEnd. intro H.
  apply (f_equal (@rev code_unit)) in H.
  rewrite rev_involutive, rev_app_distr in H. simpl in H.
  exact (trimStart_head _ _ _ H).
Qed.

Lemma trim_idempotent (s : jsstring) : trim (trim s) = trim s.
Proof.
  assert (Hstart : trimStart (trim s) = trim s).
  { destruct (trim s) as [|c r] eqn:Ht; [reflexivity|].
    apply trimStart_keeps. exact (trim_head s c r Ht). }
  unfold trim at 1. rewrite Hstart.
  unfold trim, trimEnd. rewrite rev_involutive, trimStart_idempotent.
  reflexivity.
Qed.

Lemma trim_trimmed (input : jsstring) : trim input <> [] -> trimmed (trim input).
Proof. intro H. split; [exact H | apply trim_idempotent]. Qed.

End TrimFacts.

(** X1. The term that an accepted submission records and sends is the content
    of the text box with white space removed at both ends and nothing else:
    the content is white space, then the term, then white space, and the term
    neither begins nor ends with a white-space code unit. *)
Theorem submitted_term_is_box_content_without_margins
    (sys : System) (input : jsstring) :
  rejects input (app sys) = false ->
  exists term left right,
    searchedTerm (app (handleSubmit input sys)) = Some term
    /\ pending (handleSubmit input sys) = pending sys ++ [term]
    /\ input = left ++ term ++ right
    /\ forallb isWhiteSpace left = true
    /\ forallb isWhiteSpace right = true
    /\ term <> []
    /\ (forall c r, term = c :: r -> isWhiteSpace c = false)
    /\ (forall c r, term = r ++ [c] -> isWhiteSpace c = false).
Proof.
  intro Hacc. pose proof Hacc as Hacc'.
  apply rejects_false_iff in Hacc'. destruct Hacc' as [Hterm _].
  destruct (trimStart_decompose input) as (left & Hleft & Hin).
  destruct (trimStart_trim input) as (right & Hright & Hst).
  exists (trim input), left, right.
  unfold handleSubmit. rewrite Hacc. simpl.
  repeat split; auto.
  - rewrite <- Hst. exact Hin.
  - intros c r. apply trim_head.
  - intros c r. apply trim_last.
Qed.

Lemma submitted_term_is_box_content_without_margins_witness :
  exists term left right,
    searchedTerm (app (handleSubmit (js "  ESG 지수 ") start)) = Some term
    /\ pending (handleSubmit (js "  ESG 지수 ") start) = pending start ++ [term]
    /\ js "  ESG 지수 " = left ++ term ++ right
    /\ forallb isWhiteSpace left = true
    /\ forallb isWhiteSpace right = true
    /\ term <> []
    /\ (forall c r, term = c :: r -> isWhiteSpace c = false)
    /\ (forall c r, term = r ++ [c] -> isWhiteSpace c = false).
Proof.
  apply (submitted_term_is_box_content_without_margins start (js "  ESG 지수 ")).
  reflexivity.
Defined.

(** X2. A submission depends on the text box only through its trimmed
    content: white space around the term changes neither whether the form
    accepts it nor the state and the provider call that result. *)
Theorem submission_ignores_surrounding_white_space
    (sys : System) (input : jsstring) :
  handleSubmit (trim input) sys = handleSubmit input sys
  /\ handleSubmit_calls (trim input) (app sys)
     = handleSubmit_calls input (app sys).
Proof.
  unfold handleSubmit, handleSubmit_calls, rejects.
  rewrite trim_idempotent. now split.
Qed.

(* ------------------------------------------------------------------ *)
(** ** The provider, and the controller wired to it *)

(** X3. A call of the provider is rejected exactly when the credential is
    missing, and then with the configuration message as a plain string; in
    particular it is never rejected with an [Error]. *)
Theorem provider_rejects_iff_credential_missing
    (API_KEY : option jsstring)
    (generateContent : GenerateContentParameters -> sdk_result)
    (term : jsstring) (reason : js_value) :
  snd (getFinancialTermDefinition API_KEY generateContent term)
  = Rejected reason
  <-> truthy_opt API_KEY = false /\ reason = JsStr CONFIG_ERROR.
Proof.
  unfold getFinancialTermDefinition.
  destruct (truthy_opt API_KEY); simpl.
  - destruct (generateContent (request term)); simpl;
      (split; [discriminate | intros [H _]; discriminate H]).
  - split; [intros [= <-]; now split | intros [_ ->]; reflexivity].
Qed.

(** X4. What a call of the provider does besides returning: it sends one
    request when the credential is present and none otherwise; the request
    carries the term as passed, under the fixed model and system instruction;
    and the failure is written to the console exactly when the [try] block
    threw, with the thrown value. *)
Theorem provider_effects
    (API_KEY : option jsstring)
    (generateContent : GenerateContentParameters -> sdk_result)
    (term : jsstring) :
  let log := fst (getFinancialTermDefinition API_KEY generateContent term) in
  filter isNetworkCall log
  = (if truthy_opt API_KEY then [NetworkCall (request term)] else [])
  /\ (forall req, In (NetworkCall req) log ->
        contents req = term /\ model req = js "gemini-2.5-flash"
        /\ config_systemInstruction req = systemInstruction)
  /\ (forall detail,
        In (ConsoleError detail) log
        <-> truthy_opt API_KEY = true
            /\ generateContent (request term) = SdkThrow detail).
Proof.
  unfold getFinancialTermDefinition.
  destruct (truthy_opt API_KEY); simpl;
    [destruct (generateContent (request term)) as [text | e]; simpl|];
    (split; [reflexivity|]);
    (split; [intros req Hin | intros detail; split; intro Hin]);
    simpl in *; effect_cases.
Qed.

Section WiredFacts.

Variable generateContent : GenerateContentParameters -> sdk_result.
Variables (st : State) (term : jsstring).

Lemma search_text (API_KEY : option jsstring) (text : jsstring) :
  truthy_opt API_KEY = true ->
  generateContent (request term) = SdkText text ->
  search API_KEY generateContent st term
  = handleSearch st term (Fulfilled text).
Proof.
  intros Hkey Hsdk. unfold search, getFinancialTermDefinition.
  now rewrite Hkey, Hsdk.
Qed.

Lemma search_throw (API_KEY : option jsstring) (e : js_value) :
  truthy_opt API_KEY = true ->
  generateContent (request term) = SdkThrow e ->
  search API_KEY generateContent st term
  = handleSearch st term
      (Fulfilled match e with
                 | JsError message => API_ERROR_TEMPLATE ++ message
                 | _ => UNKNOWN_ERROR
                 end).
Proof.
  intros Hkey Hsdk. unfold search, getFinancialTermDefinition.
  now rewrite Hkey, Hsdk.
Qed.

Lemma search_unconfigured (API_KEY : option jsstring) :
  truthy_opt API_KEY = false ->
  search API_KEY generateContent st term
  = handleSearch st term (Rejected (JsStr CONFIG_ERROR)).
Proof.
  intro Hkey. unfold search, getFinancialTermDefinition. now rewrite Hkey.
Qed.

End WiredFacts.

(** X5. The failure strings the provider builds are read back as failures by
    the controller: when the [try] block throws, the search ends in the error
    view, showing the template followed by the message for an [Error] (also
    for an empty message) and the fixed unknown-error sentence for any other
    value; no definition is stored. *)
Theorem service_failure_is_shown_as_error
    (API_KEY : option jsstring)
    (generateContent : GenerateContentParameters -> sdk_result)
    (st : State) (term : jsstring) (e : js_value) :
  truthy_opt API_KEY = true ->
  generateContent (request term) = SdkThrow e ->
  let st' := search API_KEY generateContent st term in
  definition st' = None
  /\ isLoading st' = false
  /\ (forall message, e = JsError message ->
        renderContent st' = ErrorDisplay (API_ERROR_TEMPLATE ++ message))
  /\ (instanceofError e = false ->
        renderContent st' = ErrorDisplay UNKNOWN_ERROR).
Proof.
  intros Hkey Hsdk st'. subst st'.
  rewrite (search_throw generateContent st term API_KEY e Hkey Hsdk).
  destruct (provider_error_strings_recognised) as [Htemplate Hunknown].
  destruct e as [message | s | o |]; simpl;
    rewrite handleSearch_error_result by (auto using Htemplate, Hunknown);
    repeat split; try discriminate.
  intros message' [= <-]. reflexivity.
Qed.

Lemma service_failure_is_shown_as_error_witness :
  renderContent
    (search (Some (js "k")) (fun _ => SdkThrow (JsError [])) initial (js "ESG"))
  = ErrorDisplay API_ERROR_TEMPLATE.
Proof.
  destruct (service_failure_is_shown_as_error (Some (js "k"))
              (fun _ => SdkThrow (JsError [])) initial (js "ESG")
              (JsError []) eq_refl eq_refl) as (_ & _ & Herror & _).
  exact (Herror [] eq_refl).
Defined.

(** X6. The string channel loses the difference between a failure and an
    answer: a service that answers with the text "API 호출 중 오류가
    발생했습니다: m" and a service that throws an [Error] with message m
    leave the application in the same state. *)
Theorem answer_and_failure_are_indistinguishable
    (API_KEY : option jsstring)
    (answering failing : GenerateContentParameters -> sdk_result)
    (st : State) (term message : jsstring) :
  truthy_opt API_KEY = true ->
  answering (request term) = SdkText (API_ERROR_TEMPLATE ++ message) ->
  failing (request term) = SdkThrow (JsError message) ->
  search API_KEY answering st term = search API_KEY failing st term.
Proof.
  intros Hkey Ha Hf.
  rewrite (search_text answering st term API_KEY _ Hkey Ha).
  rewrite (search_throw failing st term API_KEY _ Hkey Hf).
  reflexivity.
Qed.

Lemma answer_and_failure_are_indistinguishable_witness :
  search (Some (js "k"))
    (fun _ => SdkText (js "API 호출 중 오류가 발생했습니다: 503")) initial (js "ESG")
  = search (Some (js "k"))
      (fun _ => SdkThrow (JsError (js "503"))) initial (js "ESG").
Proof.
  apply (answer_and_failure_are_indistinguishable (Some (js "k"))
           (fun _ => SdkText (js "API 호출 중 오류가 발생했습니다: 503"))
           (fun _ => SdkThrow (JsError (js "503")))
           initial (js "ESG") (js "503"));
    reflexivity.
Defined.

(** X7. Wired to the provider, a search for a non-empty term ends in the
    initial placeholder in one case only: the credential is present and the
    service answered with the empty text. *)
Theorem search_ends_in_placeholder_iff_empty_answer
    (API_KEY : option jsstring)
    (generateContent : GenerateContentParameters -> sdk_result)
    (st : State) (term : jsstring) :
  term <> [] ->
  (renderContent (search API_KEY generateContent st term) = InitialState
   <-> truthy_opt API_KEY = true
       /\ generateContent (request term) = SdkText []).
Proof.
  intro Hterm. destruct (truthy_opt API_KEY) eqn:Hkey.
  - destruct (generateContent (request term)) as [text | e] eqn:Hsdk.
    + rewrite (search_text generateContent st term API_KEY text Hkey Hsdk).
      destruct (isErrorResult text) eqn:He.
      * rewrite handleSearch_error_result by exact He.
        rewrite render_error by now apply isErrorResult_nonempty.
        split; [discriminate|]. intros [_ [= ->]]. discriminate He.
      * rewrite handleSearch_plain_result by exact He.
        apply truthy_iff in Hterm. unfold renderContent. simpl.
        rewrite Hterm. destruct text; simpl.
        -- now split.
        -- split; [discriminate | intros [_ H]; discriminate H].
    + rewrite (search_throw generateContent st term API_KEY e Hkey Hsdk).
      destruct (provider_error_strings_recognised) as [Htemplate Hunknown].
      split; [|intros [_ H]; discriminate H].
      destruct e;
        rewrite handleSearch_error_result by (auto using Htemplate, Hunknown);
        discriminate.
  - rewrite (search_unconfigured generateContent st term API_KEY Hkey).
    split; [discriminate | intros [H _]; discriminate H].
Qed.

Lemma search_ends_in_placeholder_iff_empty_answer_witness :
  renderContent
    (search (Some (js "k")) (fun _ => SdkText []) initial (js "ESG"))
  = InitialState.
Proof.
  apply (search_ends_in_placeholder_iff_empty_answer (Some (js "k"))
           (fun _ => SdkText []) initial (js "ESG")).
  - discriminate.
  - split; reflexivity.
Defined.

(** X8. Wired to the provider, an error that a search stores is always
    shown: the stored message is never empty, so the error view displays
    exactly the content of the [error] cell. *)
Theorem stored_error_is_shown
    (API_KEY : option jsstring)
    (generateContent : GenerateContentParameters -> sdk_result)
    (st : State) (term message : jsstring) :
  error (search API_KEY generateContent st term) = Some message ->
  message <> []
  /\ renderContent (search API_KEY generateContent st term)
     = ErrorDisplay message.
Proof.
  destruct (truthy_opt API_KEY) eqn:Hkey.
  - destruct (generateContent (request term)) as [text | e] eqn:Hsdk.
    + rewrite (search_text generateContent st term API_KEY text Hkey Hsdk).
      destruct (isErrorResult text) eqn:He.
      * rewrite handleSearch_error_result by exact He. simpl.
        intros [= <-].
        assert (Hne : text <> []) by now apply isErrorResult_nonempty.
        split; [exact Hne | now apply render_error].
      * rewrite handleSearch_plain_result by exact He. discriminate.
    + rewrite (search_throw generateContent st term API_KEY e Hkey Hsdk).
      destruct (provider_error_strings_recognised) as [Htemplate Hunknown].
      destruct e as [m | s | o |];
        rewrite handleSearch_error_result by (auto using Htemplate, Hunknown);
        simpl; intros [= <-]; split; try discriminate; reflexivity.
  - rewrite (search_unconfigured generateContent st term API_KEY Hkey).
    simpl. intros [= <-]. split; [discriminate | reflexivity].
Qed.

Lemma stored_error_is_shown_witness :
  renderContent (search None (fun _ => SdkText (js "**ESG**")) initial (js "ESG"))
  = ErrorDisplay FALLBACK_ERROR.
Proof.
  apply (stored_error_is_shown None (fun _ => SdkText (js "**ESG**"))
           initial (js "ESG") FALLBACK_ERROR).
  reflexivity.
Defined.

(* ------------------------------------------------------------------ *)
(** ** The shape of the reachable states *)

Section ShapeFacts.

Lemma run_handleSearch_begin (st : State) (term : jsstring) :
  run st (handleSearch_begin term)
  = {| searchedTerm := Some term; definition := None;
       isLoading := true; error := None |}.
Proof. reflexivity. Qed.

Lemma handleSearch_from_initial (st : State) (term : jsstring)
    (outcome : settled) :
  handleSearch st term outcome = handleSearch initial term outcome.
Proof. reflexivity. Qed.

Lemma handleSearch_cells (st : State) (term : jsstring) (outcome : settled) :
  isLoading (handleSearch st term outcome) = false
  /\ searchedTerm (handleSearch st term outcome) = Some term.
Proof.
  destruct outcome as [result | e]; unfold handleSearch, handleSearch_settle;
    [destruct (isErrorResult result)|]; now split.
Qed.

Lemma handleSearch_definition (st : State) (term d : jsstring)
    (outcome : settled) :
  definition (handleSearch st term outcome) = Some d ->
  outcome = Fulfilled d /\ isErrorResult d = false
  /\ error (handleSearch st term outcome) = None.
Proof.
  destruct outcome as [result | e]; [|discriminate].
  destruct (isErrorResult result) eqn:He.
  - rewrite handleSearch_error_result by exact He. discriminate.
  - rewrite handleSearch_plain_result by exact He. simpl.
    intros [= <-]. auto.
Qed.

Lemma handleSubmit_accepted (sys : System) (input : jsstring) :
  rejects input (app sys) = false ->
  pending sys = [] ->
  handleSubmit input sys = loading_state (trim input).
Proof.
  intros Hacc Hp. unfold handleSubmit. rewrite Hacc, Hp. reflexivity.
Qed.

(** Every reachable state is the initial one, a search waiting for its
    answer, or a search that got its answer. *)
Lemma reachable_cases (sys : System) :
  reachable sys ->
  sys = start
  \/ (exists term, trimmed term /\ sys = loading_state term)
  \/ (exists term outcome, trimmed term /\ sys = settled_state term outcome).
Proof.
  induction 1 as [|sys sys' calls Hreach IH Hstep]; [now left|].
  destruct Hstep as [input sys | term outcome before after sys Hp].
  - unfold handleSubmit. destruct (rejects input (app sys)) eqn:Hacc;
      [exact IH|].
    right; left. exists (trim input).
    pose proof Hacc as Hacc'. apply rejects_false_iff in Hacc'.
    destruct Hacc' as [Hterm Hidle].
    split; [now apply trim_trimmed|].
    assert (Hp : pending sys = []).
    { destruct IH as [-> | [(t & _ & ->) | (t & o & _ & ->)]];
        [reflexivity | discriminate Hidle | reflexivity]. }
    rewrite Hp. reflexivity.
  - destruct IH as [-> | [(t & Ht & ->) | (t & o & _ & ->)]].
    + now destruct before.
    + simpl in Hp. apply singleton_split in Hp. destruct Hp as [-> ->].
      right; right. exists t, outcome. now split.
    + now destruct before.
Qed.

Lemma cases_reachable (term : jsstring) :
  trimmed term ->
  reachable (loading_state term)
  /\ forall outcome, reachable (settled_state term outcome).
Proof.
  intros [Hne Htrim].
  assert (Hsub : handleSubmit term start = loading_state term).
  { rewrite <- Htrim at 2. apply handleSubmit_accepted; [|reflexivity].
    apply rejects_false_iff. rewrite Htrim. now split. }
  assert (Hload : reachable (loading_state term)).
  { rewrite <- Hsub.
    exact (reachable_step reachable_start (step_submit term start)). }
  split; [exact Hload|]. intro outcome.
  exact (reachable_step Hload
           (step_settle term outcome [] [] (loading_state term) eq_refl)).
Qed.

End ShapeFacts.

(** X9. A call of [handleSearch] replaces the state wholesale: the state at
    its end does not depend on the state before it, only on the term and on
    how the promise settled; the spinner is off, the term is recorded, and
    exactly one of the error cell and the definition cell is filled. *)
Theorem handleSearch_replaces_state
    (st1 st2 : State) (term : jsstring) (outcome : settled) :
  handleSearch st1 term outcome = handleSearch st2 term outcome
  /\ isLoading (handleSearch st1 term outcome) = false
  /\ searchedTerm (handleSearch st1 term outcome) = Some term
  /\ (error (handleSearch st1 term outcome) = None
      /\ definition (handleSearch st1 term outcome) <> None
      \/ error (handleSearch st1 term outcome) <> None
         /\ definition (handleSearch st1 term outcome) = None).
Proof.
  split; [reflexivity|].
  destruct outcome as [result | e]; unfold handleSearch, handleSearch_settle;
    [destruct (isErrorResult result)|]; simpl;
    repeat split; (left; split; [reflexivity | discriminate])
                  || (right; split; [discriminate | reflexivity]).
Qed.

(** X10. The states the application can be in are exactly: the initial state;
    for a trimmed non-empty term, the state waiting for the answer with that
    one call pending; and for such a term and any way the call settles, the
    state [handleSearch] ends in, with nothing pending. *)
Theorem reachable_characterised (sys : System) :
  reachable sys
  <-> sys = start
      \/ (exists term, trimmed term /\ sys = loading_state term)
      \/ (exists term outcome,
            trimmed term /\ sys = settled_state term outcome).
Proof.
  split; [apply reachable_cases|].
  intros [-> | [(term & Ht & ->) | (term & outcome & Ht & ->)]].
  - exact reachable_start.
  - now apply cases_reachable.
  - now apply cases_reachable.
Qed.

(** X11. The answer that arrives always belongs to the term on display: in a
    reachable state a pending call is the only one, its term is the recorded
    searched term, the spinner is shown, and when it settles the application
    is in the state [handleSearch] ends in for that term. *)
Theorem pending_call_is_for_displayed_term (sys : System) (term : jsstring) :
  reachable sys ->
  In term (pending sys) ->
  pending sys = [term]
  /\ searchedTerm (app sys) = Some term
  /\ renderContent (app sys) = LoadingIndicator
  /\ forall outcome, settle_oldest outcome sys = settled_state term outcome.
Proof.
  intros Hreach Hin.
  destruct (reachable_cases sys Hreach)
    as [-> | [(t & _ & ->) | (t & o & _ & ->)]]; try (now elim Hin).
  destruct Hin as [<- | []]. repeat split.
Qed.

Lemma pending_call_is_for_displayed_term_witness :
  settle_oldest (Fulfilled (js "**ESG**")) (handleSubmit (js " ESG") start)
  = settled_state (js "ESG") (Fulfilled (js "**ESG**")).
Proof.
  apply (pending_call_is_for_displayed_term
           (handleSubmit (js " ESG") start) (js "ESG")).
  - exact (reachable_step reachable_start (step_submit (js " ESG") start)).
  - left. reflexivity.
Defined.

(** X12. What is stored as a definition never starts with an error prefix, so
    a failure string of the provider is never rendered as markdown; a stored
    definition comes with no error and with a trimmed non-empty term, and it
    is shown in the result view unless it is empty. *)
Theorem stored_definition_is_not_a_failure (sys : System) (d : jsstring) :
  reachable sys ->
  definition (app sys) = Some d ->
  startsWith d API_ERROR_PREFIX = false
  /\ startsWith d UNKNOWN_ERROR_PREFIX = false
  /\ error (app sys) = None
  /\ exists term,
       trimmed term /\ searchedTerm (app sys) = Some term
       /\ (d <> [] -> renderContent (app sys) = ResultDisplay term d).
Proof.
  intros Hreach Hd.
  destruct (reachable_cases sys Hreach)
    as [-> | [(t & _ & ->) | (t & o & Ht & ->)]]; try discriminate Hd.
  simpl in *. destruct (handleSearch_definition initial t d o Hd) as (-> & He & Herr).
  pose proof He as He'. unfold isErrorResult in He'.
  apply orb_false_iff in He'. destruct He' as [H1 H2].
  repeat split; auto.
  exists t. rewrite handleSearch_plain_result by exact He. simpl.
  repeat split; try apply Ht.
  intro Hne. destruct Ht as [Htne _].
  apply truthy_iff in Hne, Htne. unfold renderContent. simpl.
  now rewrite Hne, Htne.
Qed.

Lemma stored_definition_is_not_a_failure_witness :
  renderContent (app (settled_state (js "ESG") (Fulfilled (js "**ESG**"))))
  = ResultDisplay (js "ESG") (js "**ESG**").
Proof.
  destruct (stored_definition_is_not_a_failure
              (settled_state (js "ESG") (Fulfilled (js "**ESG**")))
              (js "**ESG**"))
    as (_ & _ & _ & term & _ & Hterm & Hview).
  - apply (cases_reachable (js "ESG")). split; [discriminate | reflexivity].
  - reflexivity.
  - injection Hterm as <-. apply Hview. discriminate.
Defined.

(** X13. The recorded searched term is empty only before the first accepted
    submission: in a reachable state it is null exactly in the initial state,
    and otherwise it is a non-empty string with nothing left to trim. *)
Theorem searched_term_is_trimmed_and_kept (sys : System) :
  reachable sys ->
  (searchedTerm (app sys) = None <-> sys = start)
  /\ (forall term, searchedTerm (app sys) = Some term -> trimmed term).
Proof.
  intro Hreach.
  destruct (reachable_cases sys Hreach)
    as [-> | [(t & Ht & ->) | (t & o & Ht & ->)]]; simpl.
  - split; [tauto | discriminate].
  - split; [split; discriminate | now intros term [= <-]].
  - destruct (handleSearch_cells initial t o) as [Hl Hs]. rewrite Hs.
    split; [split; [discriminate|] | now intros term [= <-]].
    intro H. apply (f_equal (fun s => searchedTerm (app s))) in H.
    simpl in H. rewrite Hs in H. discriminate H.
Qed.

Lemma searched_term_is_trimmed_and_kept_witness :
  trimmed (js "ESG").
Proof.
  apply (searched_term_is_trimmed_and_kept
           (handleSubmit (js " ESG ") start)).
  - exact (reachable_step reachable_start (step_submit (js " ESG ") start)).
  - reflexivity.
Defined.

(* ------------------------------------------------------------------ *)
(** ** Sessions *)

Section SessionFacts.

Variable API_KEY : option jsstring.
Variable generateContent : GenerateContentParameters -> sdk_result.

Lemma provider_requests (term : jsstring) :
  filter isNetworkCall (fst (getFinancialTermDefinition API_KEY generateContent term))
  = if truthy_opt API_KEY then [NetworkCall (request term)] else [].
Proof.
  unfold getFinancialTermDefinition.
  destruct (truthy_opt API_KEY); simpl; [|reflexivity].
  now destruct (generateContent (request term)).
Qed.

Lemma session_snoc (inputs : list jsstring) (input : jsstring) :
  session API_KEY generateContent (inputs ++ [input])
  = submission API_KEY generateContent
      (session API_KEY generateContent inputs) input.
Proof. unfold session, session_from. now rewrite fold_left_app. Qed.

Lemma accepted_snoc (inputs : list jsstring) (input : jsstring) :
  accepted (inputs ++ [input])
  = accepted inputs ++ (if truthy (trim input) then [input] else []).
Proof. unfold accepted. rewrite filter_app. simpl. reflexivity. Qed.

(** The state after a session is decided by the last accepted input, and the
    effects are those of the provider calls for the accepted inputs. *)
Lemma session_closed_form (inputs : list jsstring) :
  fst (session API_KEY generateContent inputs)
  = match rev (accepted inputs) with
    | [] => start
    | input :: _ => settled_state (trim input) (snd (getFinancialTermDefinition API_KEY generateContent (trim input)))
    end
  /\ snd (session API_KEY generateContent inputs)
     = flat_map (fun input => fst (getFinancialTermDefinition API_KEY generateContent (trim input))) (accepted inputs).
Proof.
  induction inputs as [|input inputs [IHs IHl]] using rev_ind; [now split|].
  rewrite session_snoc, accepted_snoc.
  assert (Hidle : isLoading (app (fst (session API_KEY generateContent inputs)))
                  = false
                  /\ pending (fst (session API_KEY generateContent inputs))
                     = []).
  { rewrite IHs. destruct (rev (accepted inputs)); [now split|].
    split; [apply handleSearch_cells | reflexivity]. }
  destruct Hidle as [Hidle Hp].
  unfold submission, rejects. rewrite Hidle.
  destruct (truthy (trim input)) eqn:Ht; simpl.
  - rewrite rev_app_distr, flat_map_app. simpl. rewrite app_nil_r.
    split; [|now rewrite IHl].
    unfold handleSubmit, rejects, settle_oldest. rewrite Hidle, Ht, Hp. simpl.
    reflexivity.
  - rewrite app_nil_r. now split.
Qed.

End SessionFacts.

(** X14. Over a whole session, the requests sent to the remote service are,
    in order, one per input accepted by the form, each carrying the trimmed
    input; inputs that are empty or white space only cost no request, and
    without a credential no request is sent at all. *)
Theorem session_sends_one_request_per_accepted_input
    (API_KEY : option jsstring)
    (generateContent : GenerateContentParameters -> sdk_result)
    (inputs : list jsstring) :
  filter isNetworkCall (snd (session API_KEY generateContent inputs))
  = if truthy_opt API_KEY
    then map (fun input => NetworkCall (request (trim input)))
           (accepted inputs)
    else [].
Proof.
  destruct (session_closed_form API_KEY generateContent inputs) as [_ ->].
  induction (accepted inputs) as [|input l IH]; simpl.
  - now destruct (truthy_opt API_KEY).
  - rewrite filter_app, IH, provider_requests.
    now destruct (truthy_opt API_KEY).
Qed.

(** X15. A session keeps no history: the application ends in a reachable
    state fixed by the last input the form accepted (the state in which
    [handleSearch] ends for its trimmed content and the provider's answer to
    it), whatever was searched before; it is the initial state when no input
    was accepted. *)
Theorem session_state_is_fixed_by_last_accepted_input
    (API_KEY : option jsstring)
    (generateContent : GenerateContentParameters -> sdk_result)
    (inputs : list jsstring) :
  reachable (fst (session API_KEY generateContent inputs))
  /\ fst (session API_KEY generateContent inputs)
     = match rev (accepted inputs) with
       | [] => start
       | input :: _ =>
           {| app := search API_KEY generateContent initial (trim input);
              pending := [] |}
       end.
Proof.
  destruct (session_closed_form API_KEY generateContent inputs) as [Hs _].
  split; [|exact Hs].
  rewrite Hs.
  destruct (rev (accepted inputs)) as [|input l] eqn:Hrev;
    [exact reachable_start|].
  apply cases_reachable. apply trim_trimmed. apply truthy_iff.
  assert (Hin : In input (accepted inputs)).
  { apply in_rev. rewrite Hrev. now left. }
  unfold accepted in Hin. apply filter_In in Hin. apply Hin.
Qed.
